(** * ronald-egui, scripts/generate-key-labels.py

    A shallow embedding of the key-label generator: the static key table,
    the synthesis of the per-key SVG document, the line filter that extracts
    the converted paths, and the handling of the two transient files.

    Conventions of the embedding:
    - a Python [bytes] value is a [list byte];
    - a Python [str] is a [string] holding its UTF-8 encoding, so that
      [str.encode("utf-8")] is the passage from [string] to [list byte];
    - a Python [int] is a [Z], and [//] by a positive literal is [Z.div];
    - the file system is a finite map from path names to contents; a path
      name stands for one file, as on a case-sensitive file system when no
      two of the names used lead to the same file;
    - the directories that exist are a set of path names, which neither
      the script nor the converter changes; the current directory exists;
    - an exception is the [Raise] branch of the [result] type; of the
      errors of the operating system, the missing file and the missing
      directory are modelled, both [FileNotFoundError]. *)

From Stdlib Require Import ZArith QArith List Strings.String Strings.Ascii Strings.Byte DecimalString DecimalPos DecimalZ Bool Lia.
From stdpp Require Import gmap strings.
Import ListNotations.

Local Open Scope Z_scope.

(** ** Bytes and lines *)

Abbreviation bytes := (list byte).

(** [b"..."] literals. *)
Definition b (s : string) : bytes := list_byte_of_string s.

(** [prefix.startswith]-style test used by the substring search. *)
Fixpoint starts_with (needle hay : bytes) : bool :=
  match needle, hay with
  | [], _ => true
  | _ :: _, [] => false
  | n :: needle', h :: hay' => Byte.eqb n h && starts_with needle' hay'
  end.

(** [needle in hay] on [bytes]: some position of [hay] starts with [needle]. *)
Fixpoint contains (needle hay : bytes) : bool :=
  starts_with needle hay ||
  match hay with
  | [] => false
  | _ :: hay' => contains needle hay'
  end.

Definition newline : byte := byte_of_ascii (ascii_of_nat 10).

(** Iteration over a file opened in binary mode: the content is cut after
    every newline byte, the newline stays with its line, and a last line
    without a newline is yielded as it is. [cur] is the line being read,
    in reverse. *)
Fixpoint readlines_from (cur : bytes) (content : bytes) : list bytes :=
  match content with
  | [] => match cur with [] => [] | _ => [rev cur] end
  | c :: rest =>
      if Byte.eqb c newline
      then rev (c :: cur) :: readlines_from [] rest
      else readlines_from (c :: cur) rest
  end.

Definition readlines (content : bytes) : list bytes := readlines_from [] content.

(** ** The path extractor (main, lines 338-346) *)

Definition path_marker : bytes := b "<path".
Definition close_marker : bytes := b "</g>".

(** State of the loop: the [extract] flag and the calls of [file_out.write]
    made so far, oldest first. *)
Record extractor_state := { extract : bool; written : list bytes }.

(** One turn of [for line in file_in]. *)
Definition extract_step (st : extractor_state) (line : bytes) : extractor_state :=
  let extract1 := if contains path_marker line then true else extract st in
  let extract2 := if contains close_marker line then false else extract1 in
  {| extract := extract2;
     written := if extract2 then written st ++ [line] else written st |}.

Definition extract_loop (st : extractor_state) (lines : list bytes) : extractor_state :=
  fold_left extract_step lines st.

Definition extract_init : extractor_state := {| extract := false; written := [] |}.

(** The lines written for a converted file given as its lines. *)
Definition extract_lines (lines : list bytes) : list bytes :=
  written (extract_loop extract_init lines).

(** The content of the per-key output file for a converted file. *)
Definition extractor (converted : bytes) : bytes :=
  concat (extract_lines (readlines converted)).

(** ** Exceptions *)

Inductive exn := FileNotFoundError | IndexError.

Inductive result (A : Type) :=
| Ok (a : A)
| Raise (e : exn).
Arguments Ok {A} a.
Arguments Raise {A} e.

Definition bind {A B : Type} (r : result A) (k : A -> result B) : result B :=
  match r with
  | Ok a => k a
  | Raise e => Raise e
  end.

Notation "'let!' v ':=' r 'in' k" := (bind r (fun v => k))
  (at level 10, v name, r at level 100, k at level 200).

(** [l[i]] on a Python list, for an index that is a natural number. *)
Definition index {A : Type} (l : list A) (i : nat) : result A :=
  match nth_error l i with
  | Some a => Ok a
  | None => Raise IndexError
  end.

(** ** The key table (lines 6-296) *)

Record Key := mkKey {
  name : string;
  x : Z;
  y : Z;
  width : Z;
  labels : list string
}.

(** A [str] given by the bytes of its UTF-8 encoding, for the labels the
    table writes with characters outside printable ASCII (and for the
    double quote). *)
Definition utf8 (codes : list Z) : string :=
  string_of_list_ascii (map (fun c => ascii_of_N (Z.to_N c)) codes).

Definition keys : list Key := [
  mkKey "Escape" 0 0 100 ["ESC"];
  mkKey "Key1" 100 0 100 ["!"; "1"];
  mkKey "Key2" 200 0 100 [utf8 [34]; "2"];
  mkKey "Key3" 300 0 100 ["#"; "3"];
  mkKey "Key4" 400 0 100 ["$"; "4"];
  mkKey "Key5" 500 0 100 ["%"; "5"];
  mkKey "Key6" 600 0 100 ["&amp;"; "6"];
  mkKey "Key7" 700 0 100 ["'"; "7"];
  mkKey "Key8" 800 0 100 ["("; "8"];
  mkKey "Key9" 900 0 100 [")"; "9"];
  mkKey "Key0" 1000 0 100 ["_"; "0"];
  mkKey "Minus" 1100 0 100 ["="; "-"];
  mkKey "Caret" 1200 0 100 [utf8 [195; 130; 194; 163]; utf8 [195; 162; 226; 128; 160; 226; 128; 152]];
  mkKey "Clear" 1300 0 100 ["CLR"];
  mkKey "Delete" 1400 0 100 ["DEL"];
  mkKey "Numpad7" 1500 0 100 ["F7"];
  mkKey "Numpad8" 1600 0 100 ["F8"];
  mkKey "Numpad9" 1700 0 100 ["F9"];
  mkKey "JoystickUp" 2000 0 100 [utf8 [195; 162; 226; 128; 161; 194; 167]];
  mkKey "Tab" 0 100 125 ["TAB"];
  mkKey "Q" 125 100 100 ["Q"];
  mkKey "W" 225 100 100 ["W"];
  mkKey "E" 325 100 100 ["E"];
  mkKey "R" 425 100 100 ["R"];
  mkKey "T" 525 100 100 ["T"];
  mkKey "Y" 625 100 100 ["Y"];
  mkKey "U" 725 100 100 ["U"];
  mkKey "I" 825 100 100 ["I"];
  mkKey "O" 925 100 100 ["O"];
  mkKey "P" 1025 100 100 ["P"];
  mkKey "At" 1125 100 100 ["|"; "@"];
  mkKey "BracketLeft" 1225 100 100 ["{"; "["];
  mkKey "Enter" 1325 100 175 ["RETURN"];
  mkKey "Numpad4" 1500 100 100 ["F4"];
  mkKey "Numpad5" 1600 100 100 ["F5"];
  mkKey "Numpad6" 1700 100 100 ["F6"];
  mkKey "JoystickLeft" 1900 100 100 [utf8 [195; 162; 226; 128; 161; 194; 166]];
  mkKey "JoystickIcon" 2000 100 100 [utf8 [195; 176; 197; 184; 226; 128; 162; 194; 185]];
  mkKey "JoystickRight" 2100 100 100 [utf8 [195; 162; 226; 128; 161; 194; 168]];
  mkKey "CapsLock" 0 200 150 ["CAPS"; "LOCK"];
  mkKey "A" 150 200 100 ["A"];
  mkKey "S" 250 200 100 ["S"];
  mkKey "D" 350 200 100 ["D"];
  mkKey "F" 450 200 100 ["F"];
  mkKey "G" 550 200 100 ["G"];
  mkKey "H" 650 200 100 ["H"];
  mkKey "J" 750 200 100 ["J"];
  mkKey "K" 850 200 100 ["K"];
  mkKey "L" 950 200 100 ["L"];
  mkKey "Colon" 1050 200 100 ["*"; ":"];
  mkKey "Semicolon" 1150 200 100 ["+"; ";"];
  mkKey "BracketRight" 1250 200 100 ["}"; "]"];
  mkKey "Numpad1" 1500 200 100 ["F1"];
  mkKey "Numpad2" 1600 200 100 ["F2"];
  mkKey "Numpad3" 1700 200 100 ["F3"];
  mkKey "JoystickDown" 2000 200 100 [utf8 [195; 162; 226; 128; 161; 194; 169]];
  mkKey "ShiftLeft" 0 300 200 ["SHIFT"];
  mkKey "Z" 200 300 100 ["Z"];
  mkKey "X" 300 300 100 ["X"];
  mkKey "C" 400 300 100 ["C"];
  mkKey "V" 500 300 100 ["V"];
  mkKey "B" 600 300 100 ["B"];
  mkKey "N" 700 300 100 ["N"];
  mkKey "M" 800 300 100 ["M"];
  mkKey "Comma" 900 300 100 ["&lt;"; ","];
  mkKey "Period" 1000 300 100 ["&gt;"; "."];
  mkKey "Slash" 1100 300 100 ["?"; "/"];
  mkKey "Backslash" 1200 300 100 ["`"; "\"];
  mkKey "ShiftRight" 1300 300 200 ["SHIFT"];
  mkKey "Numpad0" 1500 300 100 ["F0"];
  mkKey "ArrowUp" 1600 300 100 [utf8 [195; 162; 226; 128; 161; 194; 167]];
  mkKey "NumpadPeriod" 1700 300 100 ["."];
  mkKey "JoystickFire1" 1900 300 100 ["FIRE 1"];
  mkKey "JoystickFire2" 2000 300 100 ["FIRE 2"];
  mkKey "JoystickFire3" 2100 300 100 ["FIRE 3"];
  mkKey "Control" 0 400 200 ["CONTROL"];
  mkKey "Copy" 200 400 175 ["COPY"];
  mkKey "NumpadEnter" 1175 400 325 ["ENTER"];
  mkKey "ArrowLeft" 1500 400 100 [utf8 [195; 162; 226; 128; 161; 194; 166]];
  mkKey "ArrowDown" 1600 400 100 [utf8 [195; 162; 226; 128; 161; 194; 169]];
  mkKey "ArrowRight" 1700 400 100 [utf8 [195; 162; 226; 128; 161; 194; 168]]
]%string.

(** ** The SVG synthesizer (main, lines 308-327) *)

Local Open Scope string_scope.

(** The double quote character of the attribute values. *)
Definition dq : string := utf8 [34%Z].

(** [str(n)] for an [int]: decimal digits, with a leading minus sign for a
    negative number. *)
Definition str (n : Z) : string := NilZero.string_of_int (Z.to_int n).

(** [svg = '<svg xmlns=... viewBox=...>'], line 308. *)
Definition svg_open : string :=
  "<svg xmlns=" ++ dq ++ "http://www.w3.org/2000/svg" ++ dq ++
  " viewBox=" ++ dq ++ "0 0 2200 500" ++ dq ++ ">".

(** The f-string of lines 319, 323 and 325: one [<text>] element. *)
Definition text_element (x y size : Z) (label : string) : string :=
  "<text x=" ++ dq ++ str x ++ dq ++
  " y=" ++ dq ++ str y ++ dq ++
  " font-family=" ++ dq ++ "Open Sans" ++ dq ++
  " font-size=" ++ dq ++ str size ++ dq ++
  " fill=" ++ dq ++ "white" ++ dq ++
  " stroke=" ++ dq ++ "white" ++ dq ++
  " text-anchor=" ++ dq ++ "middle" ++ dq ++
  " dominant-baseline=" ++ dq ++ "middle" ++ dq ++ ">" ++
  label ++ "</text>".

(** [s in [s1, ..., sn]] on strings. *)
Definition in_list (s : string) (l : list string) : bool :=
  existsb (String.eqb s) l.

(** The document built for one key. Indexing [key.labels] past its end
    raises [IndexError]. *)
Definition synthesize (key : Key) : result string :=
  let svg := svg_open in
  let x := (x key + width key / 2)%Z in
  let! svg :=
    if (length (labels key) =? 1)%nat then
      let size :=
        if in_list (name key) ["JoystickFire1"; "JoystickFire2"; "JoystickFire3"]
        then 25%Z
        else if in_list (name key) ["JoystickIcon"] then 70%Z
        else 30%Z in
      let y := (y key + 50)%Z in
      let! label0 := index (labels key) 0 in
      Ok (svg ++ text_element x y size label0)
    else
      let size := 30%Z in
      let y1 := (y key + 35)%Z in
      let! label0 := index (labels key) 0 in
      let svg := svg ++ text_element x y1 size label0 in
      let y2 := (y key + 70)%Z in
      let! label1 := index (labels key) 1 in
      Ok (svg ++ text_element x y2 size label1)
  in
  Ok (svg ++ "</svg>").

(** ** The file system and the transient files *)

Abbreviation filesystem := (gmap string bytes).

(** A command acts on the file system and returns a value or raises; the
    effects made before an exception stay. *)
Definition cmd (A : Type) : Type := filesystem -> filesystem * result A.

Definition cmd_bind {A B : Type} (c : cmd A) (k : A -> cmd B) : cmd B :=
  fun fs =>
    match c fs with
    | (fs', Ok a) => k a fs'
    | (fs', Raise e) => (fs', Raise e)
    end.

Notation "'do!' v ':=' c 'in' k" := (cmd_bind c (fun v => k))
  (at level 10, v name, c at level 100, k at level 200).
Notation "c ';;' k" := (cmd_bind c (fun _ => k))
  (at level 100, k at level 200, right associativity).

(** A computation without effects, run as a command. *)
Definition lift {A : Type} (r : result A) : cmd A := fun fs => (fs, r).

(** [try: body except FileNotFoundError: pass]. *)
Definition try_except_FileNotFoundError_pass (body : cmd unit) : cmd unit :=
  fun fs =>
    match body fs with
    | (fs', Raise FileNotFoundError) => (fs', Ok tt)
    | other => other
    end.

(** [os.remove(path)]. *)
Definition os_remove (path : string) : cmd unit :=
  fun fs =>
    match fs !! path with
    | Some _ => (delete path fs, Ok tt)
    | None => (fs, Raise FileNotFoundError)
    end.

(** The directory part of a path name: the text before its last slash.
    A path name without a slash names a file of the current directory. *)
Fixpoint dirname (path : string) : option string :=
  match path with
  | "" => None
  | String c rest =>
      match dirname rest with
      | Some directory => Some (String c directory)
      | None => if Ascii.eqb c "/" then Some "" else None
      end
  end.


(** Whether [open(path, "wb")] finds the directory of [path]. *)
Definition can_create (directories : gset string) (path : string) : bool :=
  match dirname path with
  | None => true
  | Some directory => bool_decide (directory ∈ directories)
  end.

(** [open(path, "wb")] followed by the writes [data], then the file closed:
    the file is created or replaced; when its directory does not exist,
    [open] raises [FileNotFoundError] and nothing is written. *)
Definition write_file (directories : gset string) (path : string) (data : bytes) :
    cmd unit :=
  fun fs =>
    if can_create directories path
    then (<[path := data]> fs, Ok tt)
    else (fs, Raise FileNotFoundError).

(** [open(path, "rb")] and the content read from it. *)
Definition read_file (path : string) : cmd bytes :=
  fun fs =>
    match fs !! path with
    | Some data => (fs, Ok data)
    | None => (fs, Raise FileNotFoundError)
    end.

(** Lines 303-306: the previous output file is removed if it exists. *)
Definition remove_output (output_filename : string) : cmd unit :=
  try_except_FileNotFoundError_pass (os_remove output_filename).

(** Lines 348-352: both removals stand in one [try] block. *)
Definition cleanup : cmd unit :=
  try_except_FileNotFoundError_pass
    (os_remove "temp_in.svg" ;; os_remove "temp_out.svg").

(** Line 302: the per-key output file. *)
Definition output_filename (key : Key) : string :=
  "../assets/keys/" ++ name key ++ ".partial.svg".

Section Pipeline.

(** The directories that exist during the run. *)
Variable directories : gset string.

(** The external converter, [os.system('inkscape ... temp_in.svg -o
    temp_out.svg')]: an arbitrary action on the file system, whose exit
    status the script does not look at. *)
Variable inkscape : filesystem -> filesystem.

Definition os_system_inkscape : cmd unit := fun fs => (inkscape fs, Ok tt).

(** One iteration of the loop of [main] (lines 302-352); the progress
    line printed at line 301 is left out. *)
Definition process_key (key : Key) : cmd unit :=
  let output_filename := output_filename key in
  remove_output output_filename ;;
  do! svg := lift (synthesize key) in
  write_file directories "temp_in.svg" (b svg) ;;
  os_system_inkscape ;;
  do! file_in := read_file "temp_out.svg" in
  write_file directories output_filename (extractor file_in) ;;
  cleanup.

(** [for i, key in enumerate(keys)]. *)
Fixpoint process_keys (ks : list Key) : cmd unit :=
  match ks with
  | [] => fun fs => (fs, Ok tt)
  | key :: ks' => process_key key ;; process_keys ks'
  end.

Definition main : cmd unit := process_keys keys.

End Pipeline.

(** ** Vocabulary of the properties *)

(** The lines written from a given value of the flag onwards. *)
Definition emitted (flag : bool) (lines : list bytes) : list bytes :=
  written (extract_loop {| extract := flag; written := [] |} lines).

Definition has_path (line : bytes) : bool := contains path_marker line.
Definition has_close (line : bytes) : bool := contains close_marker line.

(** A marker-delimited region of a converted file: the line that opens it,
    the lines up to the next line with the group-close marker, and that
    closing line. *)
Record region := { opening : bytes; body : list bytes; closing : bytes }.

Definition region_lines (r : region) : list bytes :=
  (opening r :: body r ++ [closing r])%list.

(** The lines of a region without its closing line. *)
Definition region_content (r : region) : list bytes := opening r :: body r.

(** A converted file cut into regions: the lines before the first region,
    then every region followed by the lines up to the next one. *)
Definition segmented : Type := list bytes * list (region * list bytes).

Definition segmented_lines (f : segmented) : list bytes :=
  (fst f ++ concat (map (fun rg => region_lines (fst rg) ++ snd rg) (snd f)))%list.

Definition regions (f : segmented) : list region := map fst (snd f).

Definition gaps (f : segmented) : list (list bytes) := fst f :: map snd (snd f).

(** A region as the specification words it: it begins at a line with the
    path-start marker and ends at the next line with the group-close
    marker. *)
Definition region_as_specified (r : region) : Prop :=
  has_path (opening r) = true /\
  Forall (fun l => has_close l = false) (body r) /\
  has_close (closing r) = true.

(** Between the regions of the specification no line has the path-start
    marker. *)
Definition segmented_as_specified (f : segmented) : Prop :=
  Forall region_as_specified (regions f) /\
  Forall (Forall (fun l => has_path l = false)) (gaps f).

(** A line that switches the flag on: path-start marker and no group-close
    marker. *)
Definition opens (line : bytes) : bool := has_path line && negb (has_close line).

Definition region_opened (r : region) : Prop :=
  opens (opening r) = true /\
  Forall (fun l => has_close l = false) (body r) /\
  has_close (closing r) = true.

Definition segmented_opened (f : segmented) : Prop :=
  Forall region_opened (regions f) /\
  Forall (Forall (fun l => opens l = false)) (gaps f).

(** Lines as a binary file yields them: every line ends with its only
    newline, except that the last one may have none. *)
Definition terminated (line : bytes) : Prop :=
  exists text, line = (text ++ [newline])%list /\ ~ In newline text.

Inductive proper_lines : list bytes -> Prop :=
| proper_nil : proper_lines []
| proper_last (line : bytes) :
    line <> [] -> ~ In newline line -> proper_lines [line]
| proper_cons (line : bytes) (lines : list bytes) :
    terminated line -> proper_lines lines -> proper_lines (line :: lines).

(** One [<text>] element of a synthesized document, by its attributes that
    vary. *)
Record text := { text_x : Z; text_y : Z; font_size : Z; content : string }.

Definition render (t : text) : string :=
  text_element (text_x t) (text_y t) (font_size t) (content t).

(** The document with the given text elements, in order. *)
Definition svg_of (ts : list text) : string :=
  svg_open ++ String.concat "" (map render ts) ++ "</svg>".

(** The exact value of [x + width/2], as a rational number. *)
Definition exact_centre (key : Key) : Q :=
  (inject_Z (x key) + inject_Z (width key) / 2)%Q.

(** ** Reading a document *)

(** What a reader of a document sees of a text element: the opening tag,
    the attributes in it and their values. These definitions do not use
    the synthesizer. *)

Definition dq_char : ascii := ascii_of_N 34.

(** The rest of [s] after [p], when [s] begins with [p]. *)
Fixpoint strip_prefix (p s : string) : option string :=
  match p, s with
  | "", _ => Some s
  | String _ _, "" => None
  | String a p', String c s' => if Ascii.eqb a c then strip_prefix p' s' else None
  end.

(** The rest of [s] after the first place where [p] stands. *)
Fixpoint after (p s : string) : option string :=
  match strip_prefix p s with
  | Some rest => Some rest
  | None =>
      match s with
      | "" => None
      | String _ s' => after p s'
      end
  end.

(** The text of [s] before the first [c]. *)
Fixpoint until (c : ascii) (s : string) : option string :=
  match s with
  | "" => None
  | String a s' =>
      if Ascii.eqb a c then Some ""
      else match until c s' with
           | Some value => Some (String a value)
           | None => None
           end
  end.

(** The value of the attribute [name] in a tag: the text between the
    quotes that follow the first [ name=]. *)
Definition attribute (name tag : string) : option string :=
  match after (" " ++ name ++ "=" ++ String dq_char "") tag with
  | Some rest => until dq_char rest
  | None => None
  end.

(** A decimal numeral read as a number. *)
Definition number_of (s : string) : option Z :=
  match NilZero.int_of_string s with
  | Some d => Some (Z.of_int d)
  | None => None
  end.

(** The value of an attribute, read as a number. *)
Definition number_attribute (name tag : string) : option Z :=
  match attribute name tag with
  | Some value => number_of value
  | None => None
  end.

Fixpoint string_forallb (f : ascii -> bool) (s : string) : bool :=
  match s with
  | "" => true
  | String c s' => f c && string_forallb f s'
  end.

(** A character that neither opens nor closes a tag. *)
Definition inside_tag (c : ascii) : bool :=
  negb (Ascii.eqb c "<") && negb (Ascii.eqb c ">").

(** The opening tag of one text element: [<text], attributes, [>]. *)
Definition text_tag (tag : string) : Prop :=
  exists attributes : string,
    tag = "<text" ++ attributes ++ ">" /\
    string_forallb inside_tag attributes = true.

(** The document made of the given text elements, each an opening tag and
    a label, in order. *)
Definition document_of (elements : list (string * string)) : string :=
  svg_open ++
  String.concat "" (map (fun e => fst e ++ snd e ++ "</text>") elements) ++
  "</svg>".

(** [p] and [s] differ at a place that both have. *)
Fixpoint clash (p s : string) : bool :=
  match p, s with
  | String a p', String c s' => if Ascii.eqb a c then clash p' s' else true
  | _, _ => false
  end.

(** [p] stands at no place of [s], whatever follows [s]. *)
Fixpoint no_match_in (p s : string) : bool :=
  match s with
  | "" => true
  | String _ s' => clash p s && no_match_in p s'
  end.

(** The characters of a decimal numeral. *)
Definition numeral_char (c : ascii) : bool :=
  existsb (Ascii.eqb c)
    ["0"; "1"; "2"; "3"; "4"; "5"; "6"; "7"; "8"; "9"; "-"]%char.

(** The attributes the f-string of lines 319, 323 and 325 writes, and the
    opening tag they stand in. *)
Definition tag_attributes (x y size : Z) : string :=
  " x=" ++ dq ++ str x ++ dq ++
  " y=" ++ dq ++ str y ++ dq ++
  " font-family=" ++ dq ++ "Open Sans" ++ dq ++
  " font-size=" ++ dq ++ str size ++ dq ++
  " fill=" ++ dq ++ "white" ++ dq ++
  " stroke=" ++ dq ++ "white" ++ dq ++
  " text-anchor=" ++ dq ++ "middle" ++ dq ++
  " dominant-baseline=" ++ dq ++ "middle" ++ dq.

Definition opening_tag (x y size : Z) : string :=
  "<text" ++ tag_attributes x y size ++ ">".

(** ** Sample inputs *)

(** The opening tag of the text element of the Tab key. *)
Definition tab_tag : string :=
  "<text x=" ++ dq ++ "62" ++ dq ++ " y=" ++ dq ++ "150" ++ dq ++
  " font-family=" ++ dq ++ "Open Sans" ++ dq ++
  " font-size=" ++ dq ++ "30" ++ dq ++
  " fill=" ++ dq ++ "white" ++ dq ++ " stroke=" ++ dq ++ "white" ++ dq ++
  " text-anchor=" ++ dq ++ "middle" ++ dq ++
  " dominant-baseline=" ++ dq ++ "middle" ++ dq ++ ">".

(** [s] followed by a newline, as bytes. *)
Definition ln (s : string) : bytes := (b s ++ [newline])%list.

(** A line with both markers, as the converter writes a group holding a
    single path. *)
Definition both_markers_line : bytes := ln "<g><path d='M 0,0' id='a'/></g>".

(** A converted file whose first path stands on one line with the end of
    its group. *)
Definition one_line_group_file : segmented :=
  ([ln "<svg>"],
   [({| opening := both_markers_line;
        body := [ln "<rect id='r'/>"];
        closing := ln "</g>" |},
     [ln "</svg>"])]).

(** A converted file with two regions. *)
Definition two_regions_file : segmented :=
  ([ln "<svg>"; ln "<g id='g1'>"],
   [({| opening := ln "<path";
        body := [ln "   d='M 1,1'"; ln "   id='p1' /><path"; ln "   d='M 2,2' />"];
        closing := ln "</g>" |},
     [ln "<g id='g2'>"]);
    ({| opening := ln "<path d='M 3,3' />";
        body := [];
        closing := ln "<path d='M 4,4' /></g>" |},
     [ln "</g>"; b "</svg>"])]).

(** A converted file whose group is never closed. *)
Definition unclosed_file : bytes :=
  (ln "<svg>" ++ ln "<path d='M 1,1' />" ++ ln "<rect />" ++ b "<path d='M 2,2' />")%list.

(** The key of the table whose width is odd and whose x is 0. *)
Definition tab_key : Key := mkKey "Tab" 0 100 125 ["TAB"].

Definition fire_key : Key := mkKey "JoystickFire2" 2000 300 100 ["FIRE 2"].

Definition caps_lock_key : Key := mkKey "CapsLock" 0 200 150 ["CAPS"; "LOCK"].

(** A file system at the end of an iteration in which the converter input
    file is gone and the converter output file is there. *)
Definition only_temp_out : filesystem := {[ "temp_out.svg" := ln "<svg></svg>" ]}.

(** A converter that writes its output file and leaves its input file in
    place, as the script expects. *)
Definition converter_writing (converted : bytes) (fs : filesystem) : filesystem :=
  <["temp_out.svg" := converted]> fs.

(** A converter that writes its output file and takes its input file away. *)
Definition converter_consuming (converted : bytes) (fs : filesystem) : filesystem :=
  <["temp_out.svg" := converted]> (delete "temp_in.svg" fs).

(** A converted file without any path. *)
Definition pathless_file : bytes :=
  (ln "<svg>" ++ ln "<g>" ++ ln "</g>" ++ ln "</svg>")%list.

(** A converter that reads its input file and writes its output file from
    it, leaving everything else in place; without an input file it writes
    nothing. *)
Definition converter_of (convert : bytes -> bytes) (fs : filesystem) : filesystem :=
  match fs !! "temp_in.svg" with
  | Some document => <["temp_out.svg" := convert document]> fs
  | None => fs
  end.

(** A converter that fails to run: nothing is written. *)
Definition converter_absent (fs : filesystem) : filesystem := fs.

(** A record without labels, and one with three. *)
Definition unlabelled_key : Key := mkKey "Space" 375 400 800 [].

Definition three_label_key : Key := mkKey "JoystickIcon" 0 0 100 ["a"; "b"; "c"].

(** Converted files that are one line without a newline. *)
Definition one_line_path : bytes := b "<svg><path d='M 0,0'/></svg>".

Definition one_line_group : bytes := b "<svg><g><path d='M 0,0'/></g></svg>".

(** The converted file of the two regions, as bytes. *)
Definition two_regions_bytes : bytes := concat (segmented_lines two_regions_file).

(** * Properties *)

Example synthesize_A :
  synthesize (mkKey "A" 150 200 100 ["A"]) =
  Ok (svg_open ++ text_element 200 250 30 "A" ++ "</svg>").
Proof. reflexivity. Qed.

(** ** Substring search *)

Lemma starts_with_spec (needle hay : bytes) :
  starts_with needle hay = true <-> exists rest, hay = (needle ++ rest)%list.
Proof.
  revert hay. induction needle as [|n needle IH]; intros hay; simpl.
  - split; [intros _; exists hay; reflexivity | reflexivity].
  - destruct hay as [|h hay].
    + split; [discriminate | intros [rest H]; discriminate].
    + rewrite andb_true_iff, IH. split.
      * intros [Hb [rest ->]]. apply Byte.byte_dec_bl in Hb. subst. eauto.
      * intros [rest H]. injection H as -> ->. split; [apply Byte.byte_dec_lb; reflexivity | eauto].
Qed.

(** [contains] is the substring relation. *)
Lemma contains_spec (needle hay : bytes) :
  contains needle hay = true <->
  exists before after, hay = (before ++ needle ++ after)%list.
Proof.
  induction hay as [|h hay IH]; simpl.
  - rewrite orb_false_r, starts_with_spec. split.
    + intros [rest H]. exists [], rest. exact H.
    + intros [before [after H]]. destruct before; simpl in H; [eauto | discriminate].
  - rewrite orb_true_iff, starts_with_spec, IH. split.
    + intros [[rest H] | [before [after H]]].
      * exists [], rest. exact H.
      * exists (h :: before), after. simpl. congruence.
    + intros [before [after H]]. destruct before as [|c before]; simpl in H.
      * left. eauto.
      * right. injection H as _ H. eauto.
Qed.

(** ** The extraction loop, line by line *)

Lemma extract_step_flag (st : extractor_state) (line : bytes) :
  extract (extract_step st line) =
  if contains close_marker line then false
  else if contains path_marker line then true
  else extract st.
Proof.
  unfold extract_step; simpl.
  destruct (contains close_marker line), (contains path_marker line); reflexivity.
Qed.

Lemma extract_step_written (st : extractor_state) (line : bytes) :
  written (extract_step st line) =
  (written st ++ if extract (extract_step st line) then [line] else [])%list.
Proof.
  unfold extract_step; simpl.
  destruct (contains close_marker line), (contains path_marker line),
    (extract st); simpl; rewrite ?app_nil_r; reflexivity.
Qed.

Lemma extract_loop_written (st : extractor_state) (lines : list bytes) :
  written (extract_loop st lines) = (written st ++ emitted (extract st) lines)%list.
Proof.
  unfold emitted. revert st. induction lines as [|line lines IH]; intros st; simpl.
  - rewrite app_nil_r. reflexivity.
  - rewrite IH.
    rewrite (IH (extract_step {| extract := extract st; written := [] |} line)).
    rewrite extract_step_written.
    rewrite (extract_step_written {| extract := extract st; written := [] |}).
    rewrite !extract_step_flag. simpl. rewrite <- app_assoc. reflexivity.
Qed.

Lemma emitted_nil (flag : bool) : emitted flag [] = [].
Proof. reflexivity. Qed.

Lemma emitted_cons (flag : bool) (line : bytes) (lines : list bytes) :
  emitted flag (line :: lines) =
  if contains close_marker line then emitted false lines
  else if contains path_marker line then line :: emitted true lines
  else if flag then line :: emitted true lines
  else emitted false lines.
Proof.
  unfold emitted at 1. simpl. rewrite extract_loop_written.
  rewrite extract_step_written, extract_step_flag. simpl.
  destruct (contains close_marker line), (contains path_marker line), flag;
    reflexivity.
Qed.

Lemma extract_lines_emitted (lines : list bytes) :
  extract_lines lines = emitted false lines.
Proof. reflexivity. Qed.

(** A line with the group-close marker: nothing written, flag cleared. *)
Lemma emitted_close (flag : bool) (line : bytes) (lines : list bytes) :
  contains close_marker line = true ->
  emitted flag (line :: lines) = emitted false lines.
Proof. intros H. rewrite emitted_cons, H. reflexivity. Qed.

(** A line with the path-start marker and without the group-close marker:
    written, flag set. *)
Lemma emitted_open (flag : bool) (line : bytes) (lines : list bytes) :
  contains path_marker line = true -> contains close_marker line = false ->
  emitted flag (line :: lines) = line :: emitted true lines.
Proof. intros Hp Hc. rewrite emitted_cons, Hp, Hc. reflexivity. Qed.

(** While the flag is off, lines that do not switch it on are skipped. *)
Lemma emitted_off_skip (gap lines : list bytes) :
  Forall (fun l => contains path_marker l && negb (contains close_marker l) = false) gap ->
  emitted false (gap ++ lines) = emitted false lines.
Proof.
  induction 1 as [|l gap Hl _ IH]; simpl; [reflexivity|].
  rewrite emitted_cons.
  destruct (contains close_marker l); [exact IH|].
  destruct (contains path_marker l); [discriminate | exact IH].
Qed.

(** While the flag is on, lines without the group-close marker are copied. *)
Lemma emitted_on_copy (body lines : list bytes) :
  Forall (fun l => contains close_marker l = false) body ->
  emitted true (body ++ lines) = (body ++ emitted true lines)%list.
Proof.
  induction 1 as [|l body Hl _ IH]; simpl; [reflexivity|].
  rewrite emitted_cons, Hl, IH.
  destruct (contains path_marker l); reflexivity.
Qed.

(** ** Lines of a binary file *)

Lemma eqb_newline (c : byte) : Byte.eqb c newline = true <-> c = newline.
Proof.
  split; [apply Byte.byte_dec_bl | intros ->; apply Byte.byte_dec_lb; reflexivity].
Qed.

Lemma eqb_newline_false (c : byte) : Byte.eqb c newline = false <-> c <> newline.
Proof.
  rewrite <- eqb_newline. destruct (Byte.eqb c newline); split; congruence.
Qed.

(** Reading up to the next newline. *)
Lemma readlines_from_line (cur text rest : bytes) :
  ~ In newline text ->
  readlines_from cur (text ++ newline :: rest) =
  (rev cur ++ text ++ [newline])%list :: readlines_from [] rest.
Proof.
  revert cur. induction text as [|c text IH]; intros cur Hn; cbn [readlines_from app rev concat].
  - rewrite (proj2 (eqb_newline newline) eq_refl). reflexivity.
  - assert (Hc : Byte.eqb c newline = false).
    { apply eqb_newline_false. intros ->. apply Hn. left. reflexivity. }
    rewrite Hc, IH by (intros H; apply Hn; right; exact H).
    cbn [readlines_from app rev concat]. rewrite <- app_assoc. reflexivity.
Qed.

(** Reading a last line that has no newline. *)
Lemma readlines_from_end (cur text : bytes) :
  ~ In newline text -> (rev cur ++ text)%list <> [] ->
  readlines_from cur text = [(rev cur ++ text)%list].
Proof.
  revert cur. induction text as [|c text IH]; intros cur Hn Hne; cbn [readlines_from app rev concat].
  - rewrite app_nil_r in *. destruct cur; [contradiction | reflexivity].
  - assert (Hc : Byte.eqb c newline = false).
    { apply eqb_newline_false. intros ->. apply Hn. left. reflexivity. }
    rewrite Hc, IH.
    + cbn [readlines_from app rev concat]. rewrite <- app_assoc. reflexivity.
    + intros H; apply Hn; right; exact H.
    + cbn [readlines_from app rev concat]. rewrite <- app_assoc. cbn [readlines_from app rev concat]. intros H. apply app_eq_nil in H.
      destruct H as [_ H]. discriminate.
Qed.

(** The lines of a file put together give the file back. *)
Lemma concat_readlines_from (cur content : bytes) :
  concat (readlines_from cur content) = (rev cur ++ content)%list.
Proof.
  revert cur. induction content as [|c content IH]; intros cur; cbn [readlines_from app rev concat].
  - destruct cur; cbn [readlines_from app rev concat]; rewrite ?app_nil_r; reflexivity.
  - destruct (Byte.eqb c newline); cbn [readlines_from app rev concat]; rewrite IH; cbn [readlines_from app rev concat];
      rewrite <- ?app_assoc; reflexivity.
Qed.

Lemma concat_readlines (content : bytes) : concat (readlines content) = content.
Proof. apply concat_readlines_from. Qed.

Lemma readlines_from_proper (cur content : bytes) :
  ~ In newline cur -> proper_lines (readlines_from cur content).
Proof.
  revert cur. induction content as [|c content IH]; intros cur Hn; cbn [readlines_from app rev concat].
  - destruct cur as [|c cur]; [constructor|].
    apply proper_last.
    + cbn [readlines_from app rev concat]. intros H. apply app_eq_nil in H. destruct H as [_ H]. discriminate.
    + intros H. apply in_rev in H. exact (Hn H).
  - destruct (Byte.eqb c newline) eqn:Hc.
    + apply eqb_newline in Hc. subst c. apply proper_cons.
      * exists (rev cur). split; [reflexivity|].
        intros H. apply in_rev in H. exact (Hn H).
      * apply IH. intros [].
    + apply eqb_newline_false in Hc. apply IH.
      intros [H | H]; [congruence | exact (Hn H)].
Qed.

Lemma readlines_proper (content : bytes) : proper_lines (readlines content).
Proof. apply readlines_from_proper. intros []. Qed.

(** Proper lines are read back as they were written. *)
Lemma readlines_concat (lines : list bytes) :
  proper_lines lines -> readlines (concat lines) = lines.
Proof.
  unfold readlines. induction 1 as [|line Hne Hn|line lines [text [-> Hn]] _ IH]; cbn [readlines_from app rev concat].
  - reflexivity.
  - rewrite app_nil_r. apply (readlines_from_end [] line Hn Hne).
  - rewrite <- app_assoc. cbn [readlines_from app rev concat].
    rewrite readlines_from_line by exact Hn. rewrite IH. reflexivity.
Qed.

(** Leaving lines out keeps the lines proper. *)
Lemma proper_lines_sublist (lines kept : list bytes) :
  proper_lines lines -> sublist kept lines -> proper_lines kept.
Proof.
  intros H. revert kept.
  induction H as [|line Hne Hn|line lines Ht _ IH]; intros kept Hs.
  - apply sublist_nil_r in Hs. subst. constructor.
  - inversion Hs as [|? ? ? Hs'|? ? ? Hs']; subst.
    + apply sublist_nil_r in Hs'. subst. apply proper_last; assumption.
    + apply sublist_nil_r in Hs'. subst. constructor.
  - inversion Hs as [|? ? ? Hs'|? ? ? Hs']; subst.
    + apply proper_cons; [exact Ht | apply IH; exact Hs'].
    + apply IH; exact Hs'.
Qed.

(** The lines written are lines of the input, in the order of the input. *)
Lemma emitted_sublist (flag : bool) (lines : list bytes) :
  sublist (emitted flag lines) lines.
Proof.
  revert flag. induction lines as [|l lines IH]; intros flag.
  - rewrite emitted_nil. constructor.
  - rewrite emitted_cons.
    destruct (contains close_marker l); [apply sublist_cons, IH|].
    destruct (contains path_marker l); [apply sublist_skip, IH|].
    destruct flag; [apply sublist_skip, IH | apply sublist_cons, IH].
Qed.

(** The lines of the output file are the lines written. *)
Lemma readlines_extractor (converted : bytes) :
  readlines (extractor converted) = extract_lines (readlines converted).
Proof.
  unfold extractor. apply readlines_concat.
  apply (proper_lines_sublist (readlines converted)).
  - apply readlines_proper.
  - rewrite extract_lines_emitted. apply emitted_sublist.
Qed.

(** ** The extractor on marked lines *)

(** C1, as amended: a line with the path-start marker and without the
    group-close marker is written whatever the flag was before, and a line
    with the group-close marker clears the flag and is not written, also
    when it has the path-start marker too. *)
Theorem marker_line_written_or_dropped (st : extractor_state) (line : bytes) :
  (has_path line = true -> has_close line = false ->
   written (extract_step st line) = (written st ++ [line])%list /\
   extract (extract_step st line) = true) /\
  (has_close line = true ->
   written (extract_step st line) = written st /\
   extract (extract_step st line) = false).
Proof.
  unfold has_path, has_close. split.
  - intros Hp Hc. rewrite extract_step_written, extract_step_flag, Hp, Hc. auto.
  - intros Hc. rewrite extract_step_written, extract_step_flag, Hc.
    rewrite app_nil_r. auto.
Qed.

Lemma marker_line_written_or_dropped_witness :
  (written (extract_step extract_init (ln "<path d='M 0,0' />")) =
     [ln "<path d='M 0,0' />"] /\
   extract (extract_step extract_init (ln "<path d='M 0,0' />")) = true) /\
  (written (extract_step {| extract := true; written := [ln "<path"] |}
                         both_markers_line) = [ln "<path"] /\
   extract (extract_step {| extract := true; written := [ln "<path"] |}
                         both_markers_line) = false).
Proof.
  split.
  - apply (proj1 (marker_line_written_or_dropped extract_init
                    (ln "<path d='M 0,0' />"))); reflexivity.
  - apply (proj2 (marker_line_written_or_dropped
                    {| extract := true; written := [ln "<path"] |}
                    both_markers_line)); reflexivity.
Defined.

(** C1, as stated, fails on a line that has both markers: it has the
    path-start marker and is written neither when the flag was off nor when
    it was on. *)
Lemma line_with_both_markers_dropped :
  has_path both_markers_line = true /\
  has_close both_markers_line = true /\
  written (extract_step {| extract := false; written := [] |} both_markers_line) = [] /\
  written (extract_step {| extract := true; written := [] |} both_markers_line) = [].
Proof. repeat split; reflexivity. Qed.

(** C10: no line with the group-close marker is written, from any state of
    the flag; so for every converted file none is among the lines written,
    and the output file has no line with the group-close marker. *)
Theorem close_marker_line_never_written (converted : bytes) :
  (forall (flag : bool) (lines : list bytes),
     Forall (fun l => has_close l = false) (emitted flag lines)) /\
  Forall (fun l => has_close l = false) (extract_lines (readlines converted)) /\
  Forall (fun l => has_close l = false) (readlines (extractor converted)).
Proof.
  assert (H : forall (lines : list bytes) (flag : bool),
             Forall (fun l => has_close l = false) (emitted flag lines)).
  { induction lines as [|l lines IH]; intros flag.
    - rewrite emitted_nil. constructor.
    - rewrite emitted_cons. destruct (contains close_marker l) eqn:Hc; [apply IH|].
      destruct (contains path_marker l); [constructor; [exact Hc | apply IH]|].
      destruct flag; [constructor; [exact Hc | apply IH] | apply IH]. }
  split; [intros flag lines; apply H|].
  rewrite readlines_extractor. split; apply H.
Qed.

(** C7: when no line of the converted file has the path-start marker,
    nothing is written and the output file is empty. *)
Theorem no_path_marker_empty_output (converted : bytes) :
  Forall (fun l => has_path l = false) (readlines converted) ->
  extract_lines (readlines converted) = [] /\ extractor converted = [].
Proof.
  intros H. unfold extractor.
  assert (E : extract_lines (readlines converted) = []).
  { rewrite extract_lines_emitted.
    rewrite <- (app_nil_r (readlines converted)), emitted_off_skip; [reflexivity|].
    eapply List.Forall_impl; [|exact H]. intros l Hl. simpl in Hl.
    unfold has_path in Hl. rewrite Hl. reflexivity. }
  rewrite E. split; reflexivity.
Qed.

Lemma no_path_marker_empty_output_witness :
  extract_lines (readlines pathless_file) = [] /\ extractor pathless_file = [].
Proof.
  apply (no_path_marker_empty_output pathless_file).
  vm_compute. repeat constructor.
Defined.

(** C8: when the converted file has a line with the path-start marker and
    no line from it onwards has the group-close marker, every line from the
    first line with the path-start marker to the end of the file is
    written. *)
Theorem unclosed_path_copied_to_end
    (converted : bytes) (before : list bytes) (first : bytes) (rest : list bytes) :
  readlines converted = (before ++ first :: rest)%list ->
  Forall (fun l => has_path l = false) before ->
  has_path first = true ->
  Forall (fun l => has_close l = false) (first :: rest) ->
  extract_lines (readlines converted) = first :: rest /\
  extractor converted = concat (first :: rest).
Proof.
  intros E Hb Hp Hc. unfold extractor.
  assert (E' : extract_lines (readlines converted) = first :: rest).
  { rewrite E, extract_lines_emitted, emitted_off_skip.
    - inversion Hc as [|? ? Hf Hr]; subst.
      rewrite emitted_open by assumption.
      rewrite <- (app_nil_r rest) at 1.
      rewrite emitted_on_copy by assumption.
      rewrite emitted_nil, app_nil_r. reflexivity.
    - eapply List.Forall_impl; [|exact Hb]. intros l Hl. simpl in Hl.
      unfold has_path in Hl. rewrite Hl. reflexivity. }
  rewrite E'. split; reflexivity.
Qed.

Lemma unclosed_path_copied_to_end_witness :
  extract_lines (readlines unclosed_file) =
    [ln "<path d='M 1,1' />"; ln "<rect />"; b "<path d='M 2,2' />"] /\
  extractor unclosed_file =
    concat [ln "<path d='M 1,1' />"; ln "<rect />"; b "<path d='M 2,2' />"].
Proof.
  apply (unclosed_path_copied_to_end unclosed_file [ln "<svg>"]).
  - vm_compute. reflexivity.
  - vm_compute. repeat constructor.
  - vm_compute. reflexivity.
  - vm_compute. repeat constructor.
Defined.

(** ** The extractor on a file cut into regions *)

Lemma emitted_region (r : region) (lines : list bytes) :
  region_opened r ->
  emitted false (region_lines r ++ lines) =
  (region_content r ++ emitted false lines)%list.
Proof.
  intros (Ho & Hb & Hc). unfold opens, has_path, has_close in *.
  apply andb_true_iff in Ho. destruct Ho as [Hp Hn].
  apply negb_true_iff in Hn.
  unfold region_lines, region_content. cbn [app].
  rewrite emitted_open by assumption.
  rewrite <- app_assoc, emitted_on_copy by assumption.
  cbn [app]. rewrite emitted_close by assumption. reflexivity.
Qed.

Lemma emitted_regions (rs : list (region * list bytes)) :
  Forall region_opened (map fst rs) ->
  Forall (Forall (fun l => opens l = false)) (map snd rs) ->
  emitted false (concat (map (fun rg => (region_lines (fst rg) ++ snd rg)%list) rs)) =
  concat (map region_content (map fst rs)).
Proof.
  induction rs as [|[r g] rs IH]; cbn [map concat fst snd]; intros Hr Hg.
  - apply emitted_nil.
  - inversion Hr; inversion Hg; subst.
    rewrite <- app_assoc, emitted_region by assumption.
    rewrite emitted_off_skip by assumption.
    rewrite IH by assumption. reflexivity.
Qed.

(** C6, as amended: when the converted file is made of regions that each
    begin at a line with the path-start marker and without the group-close
    marker and end at the next line with the group-close marker, and no
    line between the regions is such a beginning, the lines written are the
    lines of the regions without their closing lines, in the order of the
    file. *)
Theorem regions_extracted_in_order (f : segmented) :
  segmented_opened f ->
  extract_lines (segmented_lines f) = concat (map region_content (regions f)).
Proof.
  destruct f as [g0 rs]. unfold segmented_opened, regions, gaps, segmented_lines.
  cbn [fst snd]. intros [Hr Hg]. inversion Hg; subst.
  rewrite extract_lines_emitted, emitted_off_skip by assumption.
  apply emitted_regions; assumption.
Qed.

Lemma regions_extracted_in_order_witness :
  extract_lines (segmented_lines two_regions_file) =
  [ln "<path"; ln "   d='M 1,1'"; ln "   id='p1' /><path"; ln "   d='M 2,2' />";
   ln "<path d='M 3,3' />"].
Proof.
  apply (regions_extracted_in_order two_regions_file).
  vm_compute. repeat constructor.
Defined.

(** C6, as stated, fails on a file whose region begins at a line that has
    both markers: the region is as the claim describes it, and neither its
    opening line nor the line after it is written. *)
Lemma region_opened_on_closing_line_lost :
  segmented_as_specified one_line_group_file /\
  concat (map region_content (regions one_line_group_file)) =
    [both_markers_line; ln "<rect id='r'/>"] /\
  extract_lines (segmented_lines one_line_group_file) = [].
Proof.
  split; [|split; reflexivity].
  vm_compute. repeat constructor.
Qed.

(** ** The synthesizer *)

Lemma string_append_assoc (s1 s2 s3 : string) :
  (s1 ++ s2) ++ s3 = s1 ++ s2 ++ s3.
Proof.
  induction s1 as [|c s1 IH]; [reflexivity|].
  change (String c ((s1 ++ s2) ++ s3) = String c (s1 ++ s2 ++ s3)).
  rewrite IH. reflexivity.
Qed.

Lemma in_list_In (s : string) (l : list string) : in_list s l = true <-> In s l.
Proof.
  unfold in_list. rewrite existsb_exists. split.
  - intros [s' [Hin Heq]]. apply String.eqb_eq in Heq. subst. exact Hin.
  - intros Hin. exists s. split; [exact Hin | apply String.eqb_refl].
Qed.

Lemma svg_of_one (t : text) : svg_of [t] = (svg_open ++ render t) ++ "</svg>".
Proof. unfold svg_of. cbn [map String.concat]. rewrite string_append_assoc. reflexivity. Qed.

Lemma svg_of_two (t1 t2 : text) :
  svg_of [t1; t2] = ((svg_open ++ render t1) ++ render t2) ++ "</svg>".
Proof.
  unfold svg_of. cbn [map String.concat].
  change ("" ++ render t2) with (render t2).
  rewrite !string_append_assoc. reflexivity.
Qed.

(** The document of a key with one label. *)
Lemma synthesize_one (key : Key) (label : string) :
  labels key = [label] ->
  synthesize key =
  Ok (svg_of [{| text_x := x key + width key / 2;
                 text_y := y key + 50;
                 font_size :=
                   if in_list (name key) ["JoystickFire1"; "JoystickFire2"; "JoystickFire3"]
                   then 25
                   else if in_list (name key) ["JoystickIcon"] then 70 else 30;
                 content := label |}]).
Proof.
  intros E. unfold synthesize. rewrite E. cbn [length Nat.eqb index nth_error bind].
  rewrite svg_of_one. reflexivity.
Qed.

(** The document of a key with two labels or more: the first two are used. *)
Lemma synthesize_two (key : Key) (label0 label1 : string) (more : list string) :
  labels key = label0 :: label1 :: more ->
  synthesize key =
  Ok (svg_of [{| text_x := x key + width key / 2; text_y := y key + 35;
                 font_size := 30; content := label0 |};
              {| text_x := x key + width key / 2; text_y := y key + 70;
                 font_size := 30; content := label1 |}]).
Proof.
  intros E. unfold synthesize. rewrite E. cbn [length Nat.eqb index nth_error bind].
  rewrite svg_of_two. reflexivity.
Qed.

(** Without a label, indexing the labels raises. *)
Lemma synthesize_none (key : Key) :
  labels key = [] -> synthesize key = Raise IndexError.
Proof. intros E. unfold synthesize. rewrite E. reflexivity. Qed.

(** ** Reading the attributes of the text elements *)

Lemma append_cons (c : ascii) (s r : string) : String c s ++ r = String c (s ++ r).
Proof. reflexivity. Qed.

Lemma string_forallb_append (f : ascii -> bool) (s1 s2 : string) :
  string_forallb f (s1 ++ s2) = string_forallb f s1 && string_forallb f s2.
Proof.
  induction s1 as [|c s1 IH]; [reflexivity|].
  rewrite append_cons. cbn [string_forallb]. rewrite IH, andb_assoc. reflexivity.
Qed.

Lemma string_forallb_impl (f g : ascii -> bool) (s : string) :
  (forall c, f c = true -> g c = true) ->
  string_forallb f s = true -> string_forallb g s = true.
Proof.
  intros Himpl. induction s as [|c s IH]; [reflexivity|]. cbn [string_forallb].
  intros H. apply andb_true_iff in H. destruct H as [Hc Hs].
  rewrite (Himpl c Hc), (IH Hs). reflexivity.
Qed.

(** A numeral is made of digits and the minus sign. *)
Lemma string_of_uint_numeral (d : Decimal.uint) :
  string_forallb numeral_char (NilEmpty.string_of_uint d) = true.
Proof. induction d; cbn [NilEmpty.string_of_uint string_forallb]; auto. Qed.

Lemma str_numeral (n : Z) : string_forallb numeral_char (str n) = true.
Proof.
  unfold str, NilZero.string_of_int, NilZero.string_of_uint.
  destruct (Z.to_int n) as [d|d]; destruct d; try reflexivity;
    try apply (string_of_uint_numeral (_ _));
    cbn [string_forallb]; apply (string_of_uint_numeral (_ _)).
Qed.

Lemma numeral_char_cases (c : ascii) :
  numeral_char c = true ->
  Ascii.eqb " " c = false /\ Ascii.eqb c dq_char = false /\ inside_tag c = true.
Proof.
  destruct c as [[] [] [] [] [] [] [] []]; vm_compute; intros H;
    try discriminate H; repeat split.
Qed.

(** A numeral read as a number is the number written. *)
Lemma number_of_str (n : Z) : number_of (str n) = Some n.
Proof.
  unfold number_of, str. rewrite NilZero.isi.
  - rewrite DecimalZ.of_to. reflexivity.
  - destruct n; cbn; try discriminate.
    intros H. injection H as H. exact (DecimalPos.Unsigned.to_uint_nonnil _ H).
  - destruct n; cbn; try discriminate.
    intros H. injection H as H. exact (DecimalPos.Unsigned.to_uint_nonnil _ H).
Qed.

Lemma strip_prefix_clash (p s r : string) :
  clash p s = true -> strip_prefix p (s ++ r) = None.
Proof.
  revert s. induction p as [|a p IH]; intros s H; destruct s as [|c s];
    cbn [clash] in H; try discriminate H.
  rewrite append_cons. cbn [strip_prefix].
  destruct (Ascii.eqb a c); [apply IH, H | reflexivity].
Qed.

Lemma strip_prefix_append (p r : string) : strip_prefix p (p ++ r) = Some r.
Proof.
  induction p as [|a p IH]; [destruct r; reflexivity|].
  rewrite append_cons. cbn [strip_prefix]. rewrite Ascii.eqb_refl. exact IH.
Qed.

Lemma after_found (p s rest : string) :
  strip_prefix p s = Some rest -> after p s = Some rest.
Proof. intros H. destruct s; cbn [after]; rewrite H; reflexivity. Qed.

(** The place looked for is not in a text that clashes everywhere. *)
Lemma after_skip (p s r : string) :
  no_match_in p s = true -> after p (s ++ r) = after p r.
Proof.
  induction s as [|c s IH]; [reflexivity|]. cbn [no_match_in].
  intros H. apply andb_true_iff in H. destruct H as [Hc Hs].
  pose proof (strip_prefix_clash p (String c s) r Hc) as Hnone.
  rewrite append_cons in *. cbn [after]. rewrite Hnone. apply IH, Hs.
Qed.

Lemma after_here (p r : string) : after p (p ++ r) = Some r.
Proof. apply after_found, strip_prefix_append. Qed.

Lemma no_match_in_numeral (p : string) (n : Z) :
  no_match_in (String " " p) (str n) = true.
Proof.
  pose proof (str_numeral n) as H. induction (str n) as [|c s IH]; [reflexivity|].
  cbn [string_forallb] in H. apply andb_true_iff in H. destruct H as [Hc Hs].
  cbn [no_match_in clash].
  destruct (numeral_char_cases c Hc) as (Hsp & _ & _). rewrite Hsp.
  exact (IH Hs).
Qed.

Lemma until_value (value rest : string) :
  string_forallb (fun c => negb (Ascii.eqb c dq_char)) value = true ->
  until dq_char (value ++ dq ++ rest) = Some value.
Proof.
  induction value as [|c value IH]; [reflexivity|]. cbn [string_forallb].
  intros H. apply andb_true_iff in H. destruct H as [Hc Hs].
  rewrite append_cons. cbn [until]. apply negb_true_iff in Hc. rewrite Hc.
  rewrite (IH Hs). reflexivity.
Qed.

Lemma until_str (n : Z) (rest : string) :
  until dq_char (str n ++ dq ++ rest) = Some (str n).
Proof.
  apply until_value. apply (string_forallb_impl numeral_char); [|apply str_numeral].
  intros c Hc. destruct (numeral_char_cases c Hc) as (_ & Hq & _).
  rewrite Hq. reflexivity.
Qed.

(** The f-string writes the opening tag, the label and the closing tag. *)
Lemma text_element_opening_tag (x y size : Z) (label : string) :
  text_element x y size label = opening_tag x y size ++ label ++ "</text>".
Proof.
  unfold text_element, opening_tag, tag_attributes.
  rewrite !string_append_assoc. reflexivity.
Qed.

Lemma opening_tag_text_tag (x y size : Z) : text_tag (opening_tag x y size).
Proof.
  exists (tag_attributes x y size). split; [reflexivity|].
  assert (Hstr : forall n, string_forallb inside_tag (str n) = true).
  { intros n. apply (string_forallb_impl numeral_char); [|apply str_numeral].
    intros c Hc. apply (numeral_char_cases c Hc). }
  unfold tag_attributes. rewrite !string_forallb_append, !Hstr. reflexivity.
Qed.

Lemma opening_tag_x (x y size : Z) :
  number_attribute "x" (opening_tag x y size) = Some x.
Proof.
  unfold number_attribute, attribute, opening_tag, tag_attributes.
  rewrite !string_append_assoc.
  rewrite (after_skip _ "<text") by reflexivity.
  match goal with
  | |- context [after ?p (" x=" ++ dq ++ ?r)] =>
      change (" x=" ++ dq ++ r) with (p ++ r)
  end.
  rewrite after_here, until_str. apply number_of_str.
Qed.

Lemma opening_tag_y (x y size : Z) :
  number_attribute "y" (opening_tag x y size) = Some y.
Proof.
  unfold number_attribute, attribute, opening_tag, tag_attributes.
  rewrite !string_append_assoc.
  rewrite (after_skip _ "<text") by reflexivity.
  rewrite (after_skip _ " x=") by reflexivity.
  rewrite (after_skip _ dq) by reflexivity.
  rewrite (after_skip _ (str x)) by apply no_match_in_numeral.
  rewrite (after_skip _ dq) by reflexivity.
  match goal with
  | |- context [after ?p (" y=" ++ dq ++ ?r)] =>
      change (" y=" ++ dq ++ r) with (p ++ r)
  end.
  rewrite after_here, until_str. apply number_of_str.
Qed.

Lemma opening_tag_font_size (x y size : Z) :
  number_attribute "font-size" (opening_tag x y size) = Some size.
Proof.
  unfold number_attribute, attribute, opening_tag, tag_attributes.
  rewrite !string_append_assoc.
  rewrite (after_skip _ "<text") by reflexivity.
  rewrite (after_skip _ " x=") by reflexivity.
  rewrite (after_skip _ dq) by reflexivity.
  rewrite (after_skip _ (str x)) by apply no_match_in_numeral.
  rewrite (after_skip _ dq) by reflexivity.
  rewrite (after_skip _ " y=") by reflexivity.
  rewrite (after_skip _ dq) by reflexivity.
  rewrite (after_skip _ (str y)) by apply no_match_in_numeral.
  rewrite (after_skip _ dq) by reflexivity.
  rewrite (after_skip _ " font-family=") by reflexivity.
  rewrite (after_skip _ dq) by reflexivity.
  rewrite (after_skip _ "Open Sans") by reflexivity.
  rewrite (after_skip _ dq) by reflexivity.
  match goal with
  | |- context [after ?p (" font-size=" ++ dq ++ ?r)] =>
      change (" font-size=" ++ dq ++ r) with (p ++ r)
  end.
  rewrite after_here, until_str. apply number_of_str.
Qed.

Lemma document_of_one (tag label : string) :
  document_of [(tag, label)] = svg_open ++ tag ++ label ++ "</text>" ++ "</svg>".
Proof.
  unfold document_of. cbn [map String.concat fst snd].
  rewrite !string_append_assoc. reflexivity.
Qed.

Lemma document_of_two (tag0 label0 tag1 label1 : string) :
  document_of [(tag0, label0); (tag1, label1)] =
  svg_open ++ tag0 ++ label0 ++ "</text>" ++ tag1 ++ label1 ++ "</text>" ++ "</svg>".
Proof.
  unfold document_of. cbn [map String.concat fst snd].
  change ("" ++ tag1 ++ label1 ++ "</text>") with (tag1 ++ label1 ++ "</text>").
  rewrite !string_append_assoc. reflexivity.
Qed.

(** The document of a key with one label, by its opening tag. *)
Lemma synthesize_one_tag (key : Key) (label : string) :
  labels key = [label] ->
  synthesize key =
  Ok (document_of
        [(opening_tag (x key + width key / 2) (y key + 50)
            (if in_list (name key) ["JoystickFire1"; "JoystickFire2"; "JoystickFire3"]
             then 25
             else if in_list (name key) ["JoystickIcon"] then 70 else 30),
          label)]).
Proof.
  intros E. rewrite (synthesize_one key label E), svg_of_one, document_of_one.
  unfold render. cbn [text_x text_y font_size content].
  rewrite text_element_opening_tag, !string_append_assoc. reflexivity.
Qed.

(** The document of a key with two labels or more, by its opening tags. *)
Lemma synthesize_two_tags (key : Key) (label0 label1 : string) (more : list string) :
  labels key = label0 :: label1 :: more ->
  synthesize key =
  Ok (document_of
        [(opening_tag (x key + width key / 2) (y key + 35) 30, label0);
         (opening_tag (x key + width key / 2) (y key + 70) 30, label1)]).
Proof.
  intros E. rewrite (synthesize_two key label0 label1 more E), svg_of_two, document_of_two.
  unfold render. cbn [text_x text_y font_size content].
  rewrite !text_element_opening_tag, !string_append_assoc. reflexivity.
Qed.

(** C4: a key with exactly one label gets a document with exactly one text
    element: one opening tag, the label and the closing tag. The tag has
    the vertical position y + 50 and the font size 25 when the name is
    JoystickFire1, JoystickFire2 or JoystickFire3, the size 70 when it is
    JoystickIcon, and the size 30 otherwise; its horizontal position is
    x + width // 2. *)
Theorem single_label_document (key : Key) :
  length (labels key) = 1%nat ->
  exists (label : string) (size : Z) (tag : string),
    labels key = [label] /\
    synthesize key = Ok (svg_open ++ tag ++ label ++ "</text>" ++ "</svg>") /\
    text_tag tag /\
    number_attribute "x" tag = Some (x key + width key / 2) /\
    number_attribute "y" tag = Some (y key + 50) /\
    number_attribute "font-size" tag = Some size /\
    (In (name key) ["JoystickFire1"; "JoystickFire2"; "JoystickFire3"] -> size = 25) /\
    (name key = "JoystickIcon" -> size = 70) /\
    (~ In (name key) ["JoystickFire1"; "JoystickFire2"; "JoystickFire3"; "JoystickIcon"] ->
     size = 30).
Proof.
  intros Hlen. destruct (labels key) as [|label [|]] eqn:E; try discriminate.
  exists label. eexists. eexists. split; [reflexivity|].
  split; [rewrite <- document_of_one; apply synthesize_one_tag, E|].
  split; [apply opening_tag_text_tag|].
  split; [apply opening_tag_x|]. split; [apply opening_tag_y|].
  split; [apply opening_tag_font_size|].
  destruct (in_list (name key) ["JoystickFire1"; "JoystickFire2"; "JoystickFire3"]) eqn:Hf.
  - apply in_list_In in Hf. repeat split; [|intros Hn].
    + intros Hi. rewrite Hi in Hf. cbn in Hf. intuition discriminate.
    + exfalso. apply Hn. cbn in *. intuition.
  - assert (Hf' : ~ In (name key) ["JoystickFire1"; "JoystickFire2"; "JoystickFire3"]).
    { intros H. apply in_list_In in H. congruence. }
    destruct (in_list (name key) ["JoystickIcon"]) eqn:Hi.
    + apply in_list_In in Hi. repeat split; [intros H; contradiction|intros Hn].
      exfalso. apply Hn. cbn in *. intuition.
    + assert (Hi' : name key <> "JoystickIcon").
      { intros H. rewrite H in Hi. discriminate. }
      repeat split; [intros H; contradiction | intros H; contradiction].
Qed.

Lemma single_label_document_witness :
  exists (label : string) (size : Z) (tag : string),
    labels fire_key = [label] /\
    synthesize fire_key = Ok (svg_open ++ tag ++ label ++ "</text>" ++ "</svg>") /\
    text_tag tag /\
    number_attribute "x" tag = Some (x fire_key + width fire_key / 2) /\
    number_attribute "y" tag = Some (y fire_key + 50) /\
    number_attribute "font-size" tag = Some size /\
    (In (name fire_key) ["JoystickFire1"; "JoystickFire2"; "JoystickFire3"] -> size = 25) /\
    (name fire_key = "JoystickIcon" -> size = 70) /\
    (~ In (name fire_key) ["JoystickFire1"; "JoystickFire2"; "JoystickFire3"; "JoystickIcon"] ->
     size = 30).
Proof. apply (single_label_document fire_key). reflexivity. Defined.

(** C5: a key with exactly two labels gets a document with exactly two text
    elements, each one opening tag, its label and the closing tag. The
    first tag has the vertical position y + 35 and the second y + 70, both
    have the font size 30 whatever the name, and both have the same
    horizontal position. *)
Theorem two_label_document (key : Key) :
  length (labels key) = 2%nat ->
  exists (label0 label1 : string) (tag0 tag1 : string) (centre : Z),
    labels key = [label0; label1] /\
    synthesize key =
      Ok (svg_open ++ tag0 ++ label0 ++ "</text>" ++
                      tag1 ++ label1 ++ "</text>" ++ "</svg>") /\
    text_tag tag0 /\ text_tag tag1 /\
    number_attribute "y" tag0 = Some (y key + 35) /\
    number_attribute "y" tag1 = Some (y key + 70) /\
    number_attribute "font-size" tag0 = Some 30 /\
    number_attribute "font-size" tag1 = Some 30 /\
    number_attribute "x" tag0 = Some centre /\
    number_attribute "x" tag1 = Some centre.
Proof.
  intros Hlen. destruct (labels key) as [|label0 [|label1 [|]]] eqn:E; try discriminate.
  exists label0, label1. eexists. eexists. exists (x key + width key / 2).
  split; [reflexivity|].
  split; [rewrite <- document_of_two; apply (synthesize_two_tags key label0 label1 []), E|].
  split; [apply opening_tag_text_tag|]. split; [apply opening_tag_text_tag|].
  split; [apply opening_tag_y|]. split; [apply opening_tag_y|].
  split; [apply opening_tag_font_size|]. split; [apply opening_tag_font_size|].
  split; apply opening_tag_x.
Qed.

Lemma two_label_document_witness :
  exists (label0 label1 : string) (tag0 tag1 : string) (centre : Z),
    labels caps_lock_key = [label0; label1] /\
    synthesize caps_lock_key =
      Ok (svg_open ++ tag0 ++ label0 ++ "</text>" ++
                      tag1 ++ label1 ++ "</text>" ++ "</svg>") /\
    text_tag tag0 /\ text_tag tag1 /\
    number_attribute "y" tag0 = Some (y caps_lock_key + 35) /\
    number_attribute "y" tag1 = Some (y caps_lock_key + 70) /\
    number_attribute "font-size" tag0 = Some 30 /\
    number_attribute "font-size" tag1 = Some 30 /\
    number_attribute "x" tag0 = Some centre /\
    number_attribute "x" tag1 = Some centre.
Proof. apply (two_label_document caps_lock_key). reflexivity. Defined.

Lemma even_width_exact (key : Key) :
  Z.even (width key) = true ->
  (inject_Z (x key + width key / 2) == exact_centre key)%Q.
Proof.
  intros H. unfold exact_centre. apply Z.even_spec in H. destruct H as [m ->].
  rewrite (Z.mul_comm 2 m), Z.div_mul by lia.
  unfold Qeq, Qplus, Qdiv, Qmult, Qinv, inject_Z. simpl. lia.
Qed.

(** C2, as amended: the document of a key is made of one text element for
    each of its first two labels, and the opening tag of every one of them
    has the horizontal position x + floor(width / 2), whether the key has
    one label or two; this is the exact value of x + width/2 when the width
    is even. *)
Theorem text_x_floor_centre (key : Key) (svg : string) :
  synthesize key = Ok svg ->
  exists tags : list string,
    svg = document_of (combine tags (firstn 2 (labels key))) /\
    length tags = length (firstn 2 (labels key)) /\
    Forall (fun tag =>
              text_tag tag /\
              number_attribute "x" tag = Some (x key + width key / 2)) tags /\
    (Z.even (width key) = true ->
     (inject_Z (x key + width key / 2) == exact_centre key)%Q).
Proof.
  intros H. destruct (labels key) as [|label0 [|label1 more]] eqn:E.
  - rewrite (synthesize_none key E) in H. discriminate.
  - rewrite (synthesize_one_tag key label0 E) in H. injection H as <-.
    eexists [_]. split; [reflexivity|]. split; [reflexivity|].
    split; [|apply even_width_exact].
    repeat constructor; [apply opening_tag_text_tag | apply opening_tag_x].
  - rewrite (synthesize_two_tags key label0 label1 more E) in H. injection H as <-.
    eexists [_; _]. split; [reflexivity|]. split; [reflexivity|].
    split; [|apply even_width_exact].
    repeat constructor; (apply opening_tag_text_tag || apply opening_tag_x).
Qed.

Lemma text_x_floor_centre_witness :
  exists tags : list string,
    document_of [(tab_tag, "TAB")] =
      document_of (combine tags (firstn 2 (labels tab_key))) /\
    length tags = length (firstn 2 (labels tab_key)) /\
    Forall (fun tag =>
              text_tag tag /\
              number_attribute "x" tag = Some (x tab_key + width tab_key / 2)) tags /\
    (Z.even (width tab_key) = true ->
     (inject_Z (x tab_key + width tab_key / 2) == exact_centre tab_key)%Q).
Proof. apply (text_x_floor_centre tab_key). reflexivity. Defined.

(** C2, as stated, fails on the Tab key of the table, of width 125 at
    x = 0: its document is one text element whose opening tag has the
    horizontal position 62, which is not the exact value 125/2. *)
Lemma tab_text_x_rounded_down :
  In tab_key keys /\
  synthesize tab_key = Ok (document_of [(tab_tag, "TAB")]) /\
  attribute "x" tab_tag = Some "62" /\
  number_attribute "x" tab_tag = Some 62 /\
  ~ (inject_Z 62 == exact_centre tab_key)%Q.
Proof.
  split; [|split; [|split; [|split]]].
  - unfold tab_key, keys. do 19 right. left. reflexivity.
  - reflexivity.
  - reflexivity.
  - reflexivity.
  - unfold exact_centre, Qeq. vm_compute. discriminate.
Qed.

(** ** The transient files *)

Lemma os_remove_present (path : string) (fs : filesystem) :
  is_Some (fs !! path) -> os_remove path fs = (delete path fs, Ok tt).
Proof. intros [data H]. unfold os_remove. rewrite H. reflexivity. Qed.

Lemma os_remove_missing (path : string) (fs : filesystem) :
  fs !! path = None -> os_remove path fs = (fs, Raise FileNotFoundError).
Proof. intros H. unfold os_remove. rewrite H. reflexivity. Qed.

(** Removing the previous output file: it is gone afterwards, whether it
    was there or not. *)
Lemma remove_output_deletes (path : string) (fs : filesystem) :
  remove_output path fs = (delete path fs, Ok tt).
Proof.
  unfold remove_output, try_except_FileNotFoundError_pass.
  destruct (fs !! path) as [data|] eqn:H.
  - rewrite os_remove_present by eauto. reflexivity.
  - rewrite os_remove_missing by exact H. rewrite delete_id by exact H. reflexivity.
Qed.

(** When the converter input file is there, both transient files are gone
    after the cleanup, whether the converter output file was there or not. *)
Lemma cleanup_temp_in_present (fs : filesystem) :
  is_Some (fs !! "temp_in.svg") ->
  cleanup fs = (delete "temp_out.svg" (delete "temp_in.svg" fs), Ok tt).
Proof.
  intros Hin. unfold cleanup, try_except_FileNotFoundError_pass, cmd_bind.
  rewrite os_remove_present by exact Hin.
  destruct (delete "temp_in.svg" fs !! "temp_out.svg") as [data|] eqn:H.
  - rewrite os_remove_present by eauto. reflexivity.
  - rewrite os_remove_missing by exact H.
    rewrite (delete_id _ "temp_out.svg") by exact H. reflexivity.
Qed.

(** When the converter input file is missing, the cleanup stops at the
    first removal and leaves the file system as it is. *)
Lemma cleanup_temp_in_missing (fs : filesystem) :
  fs !! "temp_in.svg" = None -> cleanup fs = (fs, Ok tt).
Proof.
  intros Hin. unfold cleanup, try_except_FileNotFoundError_pass, cmd_bind.
  rewrite os_remove_missing by exact Hin. reflexivity.
Qed.

(** The cleanup never raises. *)
Lemma cleanup_returns (fs : filesystem) : snd (cleanup fs) = Ok tt.
Proof.
  destruct (fs !! "temp_in.svg") as [data|] eqn:H.
  - rewrite cleanup_temp_in_present by eauto. reflexivity.
  - rewrite cleanup_temp_in_missing by exact H. reflexivity.
Qed.

(** C3 fails on the code: with the converter input file missing and the
    converter output file present, the cleanup returns without an
    exception and the converter output file is still there. *)
Theorem cleanup_skips_temp_out :
  only_temp_out !! "temp_in.svg" = None /\
  cleanup only_temp_out = (only_temp_out, Ok tt) /\
  fst (cleanup only_temp_out) !! "temp_out.svg" = Some (ln "<svg></svg>").
Proof.
  assert (H : only_temp_out !! "temp_in.svg" = None) by reflexivity.
  split; [exact H|]. rewrite (cleanup_temp_in_missing _ H).
  split; reflexivity.
Qed.

Lemma output_filename_not_transient (key : Key) :
  output_filename key <> "temp_in.svg" /\ output_filename key <> "temp_out.svg".
Proof. split; intros H; discriminate H. Qed.

Section Iteration.

Variable directories : gset string.
Variable inkscape : filesystem -> filesystem.

(** An iteration up to the opening of the two files of the extraction. *)
Lemma process_key_steps (key : Key) (svg : string) (fs : filesystem) :
  synthesize key = Ok svg ->
  process_key directories inkscape key fs =
  let fs_converted :=
    inkscape (<["temp_in.svg" := b svg]> (delete (output_filename key) fs)) in
  match fs_converted !! "temp_out.svg" with
  | Some converted =>
      if can_create directories (output_filename key)
      then cleanup (<[output_filename key := extractor converted]> fs_converted)
      else (fs_converted, Raise FileNotFoundError)
  | None => (fs_converted, Raise FileNotFoundError)
  end.
Proof.
  intros Hsvg. unfold process_key, cmd_bind.
  rewrite remove_output_deletes. unfold lift. rewrite Hsvg.
  unfold write_file, os_system_inkscape, read_file. cbn zeta.
  change (can_create directories "temp_in.svg") with true. cbn iota.
  destruct (inkscape (<["temp_in.svg" := b svg]> (delete (output_filename key) fs))
              !! "temp_out.svg"); [|reflexivity].
  destruct (can_create directories (output_filename key)); reflexivity.
Qed.

Lemma process_key_raise (key : Key) (e : exn) (fs : filesystem) :
  synthesize key = Raise e ->
  process_key directories inkscape key fs = (delete (output_filename key) fs, Raise e).
Proof.
  intros Hsvg. unfold process_key, cmd_bind.
  rewrite remove_output_deletes. unfold lift. rewrite Hsvg. reflexivity.
Qed.

(** An iteration whose converter leaves its input file in place and
    writes its output file, with the directory of the per-key file in
    place: the per-key file holds the extracted lines and both transient
    files are gone. *)
Lemma process_key_converted
    (key : Key) (fs : filesystem) (svg : string) (converted : bytes) :
  synthesize key = Ok svg ->
  can_create directories (output_filename key) = true ->
  let fs_converted :=
    inkscape (<["temp_in.svg" := b svg]> (delete (output_filename key) fs)) in
  is_Some (fs_converted !! "temp_in.svg") ->
  fs_converted !! "temp_out.svg" = Some converted ->
  let fs_end := fst (process_key directories inkscape key fs) in
  snd (process_key directories inkscape key fs) = Ok tt /\
  fs_end !! output_filename key = Some (extractor converted) /\
  fs_end !! "temp_in.svg" = None /\
  fs_end !! "temp_out.svg" = None.
Proof.
  intros Hsvg Hdir fs_converted Hin Hout.
  destruct (output_filename_not_transient key) as [Hne_in Hne_out].
  assert (E : process_key directories inkscape key fs =
              (delete "temp_out.svg" (delete "temp_in.svg"
                 (<[output_filename key := extractor converted]> fs_converted)), Ok tt)).
  { rewrite (process_key_steps key svg fs Hsvg). cbn zeta.
    fold fs_converted. rewrite Hout, Hdir.
    apply cleanup_temp_in_present.
    rewrite lookup_insert_ne by exact Hne_in. exact Hin. }
  rewrite E. cbn [fst snd]. split; [reflexivity|]. split; [|split].
  - rewrite lookup_delete_ne by congruence.
    rewrite lookup_delete_ne by congruence.
    apply lookup_insert_eq.
  - rewrite lookup_delete_ne by discriminate. apply lookup_delete_eq.
  - apply lookup_delete_eq.
Qed.

End Iteration.

(** With a converter that writes [converted] and leaves its input file in
    place, every iteration that synthesizes a document and finds the
    directory of the per-key file ends with the extracted lines in the
    per-key file and without transient files. *)
Lemma process_key_converter_writing
    (directories : gset string) (key : Key) (svg : string) (converted : bytes)
    (fs : filesystem) :
  synthesize key = Ok svg ->
  can_create directories (output_filename key) = true ->
  let run := process_key directories (converter_writing converted) key fs in
  snd run = Ok tt /\
  fst run !! output_filename key = Some (extractor converted) /\
  fst run !! "temp_in.svg" = None /\
  fst run !! "temp_out.svg" = None.
Proof.
  intros Hsvg Hdir.
  apply (process_key_converted directories (converter_writing converted)
           key fs svg converted Hsvg Hdir);
    unfold converter_writing.
  - rewrite lookup_insert_ne by discriminate. rewrite lookup_insert_eq. eauto.
  - apply lookup_insert_eq.
Qed.

(** An iteration whose converter takes its input file away ends with the
    converter output file still in place. *)
Lemma process_key_leaves_temp_out :
  let run := process_key {[ "../assets/keys" ]}
               (converter_consuming (ln "<svg></svg>")) tab_key empty in
  snd run = Ok tt /\
  fst run !! "temp_in.svg" = None /\
  fst run !! "temp_out.svg" = Some (ln "<svg></svg>").
Proof. vm_compute. repeat split. Qed.

(** ** The key table *)

(** C9: the names of the table are pairwise different, and every record of
    the table has one label or two. *)
Theorem keys_names_unique_labels_one_or_two :
  NoDup (map name keys) /\
  Forall (fun key => length (labels key) = 1%nat \/ length (labels key) = 2%nat) keys.
Proof.
  split.
  - apply (bool_decide_unpack _). vm_compute. reflexivity.
  - apply Forall_forall. intros key Hin.
    assert (H : forallb (fun key => (length (labels key) =? 1)%nat ||
                                    (length (labels key) =? 2)%nat) keys = true)
      by (vm_compute; reflexivity).
    rewrite forallb_forall in H. specialize (H key).
    apply list_elem_of_In in Hin. specialize (H Hin).
    apply orb_true_iff in H. destruct H as [H | H]; apply Nat.eqb_eq in H; auto.
Qed.

(** * Further properties of the extractor *)

Lemma emitted_no_close (flag : bool) (lines : list bytes) :
  Forall (fun l => has_close l = false) (emitted flag lines).
Proof.
  revert flag. induction lines as [|l lines IH]; intros flag.
  - rewrite emitted_nil. constructor.
  - rewrite emitted_cons. destruct (contains close_marker l) eqn:Hc; [apply IH|].
    destruct (contains path_marker l); [constructor; [exact Hc | apply IH]|].
    destruct flag; [constructor; [exact Hc | apply IH] | apply IH].
Qed.

(** From a cleared flag, the first line written has the path-start marker. *)
Lemma emitted_false_head (lines : list bytes) :
  match emitted false lines with
  | [] => True
  | l :: _ => has_path l = true
  end.
Proof.
  induction lines as [|l lines IH].
  - rewrite emitted_nil. exact I.
  - rewrite emitted_cons. destruct (contains close_marker l); [exact IH|].
    destruct (contains path_marker l) eqn:Hp; [exact Hp | exact IH].
Qed.

(** Lines that begin with a path-start line and have no group-close marker
    are all written. *)
Lemma emitted_all (lines : list bytes) :
  Forall (fun l => has_close l = false) lines ->
  match lines with [] => True | l :: _ => has_path l = true end ->
  emitted false lines = lines.
Proof.
  intros Hc Hh. destruct lines as [|l lines]; [reflexivity|].
  inversion Hc as [|? ? Hl Hr]; subst.
  rewrite emitted_open by assumption.
  rewrite <- (app_nil_r lines) at 1.
  rewrite emitted_on_copy by assumption.
  rewrite emitted_nil, app_nil_r. reflexivity.
Qed.

Lemma extract_lines_idempotent (lines : list bytes) :
  extract_lines (extract_lines lines) = extract_lines lines.
Proof.
  rewrite !extract_lines_emitted.
  apply emitted_all; [apply emitted_no_close | apply emitted_false_head].
Qed.

Lemma sublist_concat_length (kept lines : list bytes) :
  sublist kept lines -> (length (concat kept) <= length (concat lines))%nat.
Proof.
  induction 1 as [|l kept lines _ IH|l kept lines _ IH]; cbn [concat].
  - apply Nat.le_refl.
  - rewrite !length_app. lia.
  - rewrite length_app. lia.
Qed.

(** X1: extracting from an extracted file changes nothing: the output file
    is a fixed point of the extractor. *)
Theorem extractor_idempotent (converted : bytes) :
  extractor (extractor converted) = extractor converted.
Proof.
  unfold extractor at 1. rewrite readlines_extractor.
  rewrite extract_lines_idempotent. reflexivity.
Qed.

(** X2: the extractor only leaves lines out: the lines written are lines of
    the converted file in their order, so the output file is never longer
    than the converted file. *)
Theorem extractor_keeps_order (converted : bytes) :
  sublist (extract_lines (readlines converted)) (readlines converted) /\
  (length (extractor converted) <= length converted)%nat.
Proof.
  assert (H : sublist (extract_lines (readlines converted)) (readlines converted)).
  { rewrite extract_lines_emitted. apply emitted_sublist. }
  split; [exact H|].
  unfold extractor. rewrite <- (concat_readlines converted) at 2.
  apply sublist_concat_length, H.
Qed.

(** X3: an output file that is not empty begins with a line that has the
    path-start marker. *)
Theorem extractor_first_line_has_path
    (converted : bytes) (first : bytes) (rest : list bytes) :
  readlines (extractor converted) = first :: rest ->
  has_path first = true.
Proof.
  rewrite readlines_extractor, extract_lines_emitted. intros E.
  pose proof (emitted_false_head (readlines converted)) as H.
  rewrite E in H. exact H.
Qed.

Lemma extractor_first_line_has_path_witness :
  has_path (ln "<path d='M 1,1' />") = true.
Proof.
  apply (extractor_first_line_has_path unclosed_file (ln "<path d='M 1,1' />")
           [ln "<rect />"; b "<path d='M 2,2' />"]).
  vm_compute. reflexivity.
Defined.

(** X4: a converted file that is a single line without a newline is copied
    whole when it has the path-start marker and not the group-close marker,
    and gives an empty output file otherwise. *)
Theorem extractor_single_line (converted : bytes) :
  ~ In newline converted ->
  extractor converted =
  if has_path converted && negb (has_close converted) then converted else [].
Proof.
  intros Hn. unfold extractor. destruct converted as [|c converted]; [reflexivity|].
  assert (E : readlines (c :: converted) = [c :: converted]).
  { apply (readlines_from_end [] (c :: converted) Hn). discriminate. }
  rewrite E, extract_lines_emitted, emitted_cons, emitted_nil.
  unfold has_path, has_close.
  destruct (contains close_marker (c :: converted)).
  - rewrite andb_false_r. reflexivity.
  - destruct (contains path_marker (c :: converted)); cbn [andb negb concat].
    + apply app_nil_r.
    + reflexivity.
Qed.

Lemma extractor_single_line_witness :
  extractor one_line_path = one_line_path /\ extractor one_line_group = [].
Proof.
  split.
  - apply (extractor_single_line one_line_path). vm_compute. intuition discriminate.
  - apply (extractor_single_line one_line_group). vm_compute. intuition discriminate.
Defined.

(** * Further properties of the synthesizer *)

Lemma synthesize_labelled (key : Key) :
  labels key <> [] -> exists svg, synthesize key = Ok svg.
Proof.
  destruct (labels key) as [|label0 [|label1 more]] eqn:E; intros H.
  - congruence.
  - rewrite (synthesize_one key label0 E). eauto.
  - rewrite (synthesize_two key label0 label1 more E). eauto.
Qed.

(** X5: the synthesizer raises exactly for a record without labels, and
    then it raises IndexError; for every other record it returns a
    document. *)
Theorem synthesize_raises_iff_unlabelled (key : Key) :
  (labels key = [] <-> synthesize key = Raise IndexError) /\
  (labels key <> [] <-> exists svg, synthesize key = Ok svg).
Proof.
  destruct (labels key) as [|label0 [|label1 more]] eqn:E.
  - rewrite (synthesize_none key E). split; split; try congruence; auto.
    intros [svg H]. discriminate.
  - rewrite (synthesize_one key label0 E). split; split; try discriminate; eauto.
  - rewrite (synthesize_two key label0 label1 more E).
    split; split; try discriminate; eauto.
Qed.

(** X6: with more than two labels only the first two are drawn, as for a
    record with these two labels, whatever the name of the record. *)
Theorem synthesize_ignores_further_labels
    (key : Key) (label0 label1 : string) (more : list string) (other_name : string) :
  labels key = label0 :: label1 :: more ->
  synthesize key =
  synthesize (mkKey other_name (x key) (y key) (width key) [label0; label1]).
Proof.
  intros E. rewrite (synthesize_two key label0 label1 more E).
  rewrite (synthesize_two (mkKey other_name (x key) (y key) (width key) [label0; label1])
             label0 label1 [] eq_refl).
  reflexivity.
Qed.

Lemma synthesize_ignores_further_labels_witness :
  synthesize three_label_key = synthesize (mkKey "K" 0 0 100 ["a"; "b"]).
Proof.
  apply (synthesize_ignores_further_labels three_label_key "a" "b" ["c"] "K").
  reflexivity.
Defined.

(** * Further properties of the file handling *)


(** X8: when the converter input file exists, the cleanup returns without
    an exception, both transient files are absent afterwards, whether the
    converter output file was there or not, and every other file is as
    before. *)
Theorem cleanup_removes_both (fs : filesystem) :
  is_Some (fs !! "temp_in.svg") ->
  snd (cleanup fs) = Ok tt /\
  fst (cleanup fs) !! "temp_in.svg" = None /\
  fst (cleanup fs) !! "temp_out.svg" = None /\
  (forall other : string, other <> "temp_in.svg" -> other <> "temp_out.svg" ->
   fst (cleanup fs) !! other = fs !! other).
Proof.
  intros Hin. rewrite (cleanup_temp_in_present fs Hin). cbn [fst snd].
  split; [reflexivity|]. split; [|split].
  - rewrite lookup_delete_ne by discriminate. apply lookup_delete_eq.
  - apply lookup_delete_eq.
  - intros other Hi Ho. rewrite !lookup_delete_ne by congruence. reflexivity.
Qed.

Lemma cleanup_removes_both_witness :
  snd (cleanup {[ "temp_in.svg" := b "<svg></svg>" ]}) = Ok tt /\
  fst (cleanup {[ "temp_in.svg" := b "<svg></svg>" ]}) !! "temp_in.svg" = None /\
  fst (cleanup {[ "temp_in.svg" := b "<svg></svg>" ]}) !! "temp_out.svg" = None /\
  (forall other : string, other <> "temp_in.svg" -> other <> "temp_out.svg" ->
   fst (cleanup {[ "temp_in.svg" := b "<svg></svg>" ]}) !! other =
   ({[ "temp_in.svg" := b "<svg></svg>" ]} : filesystem) !! other).
Proof.
  apply (cleanup_removes_both {[ "temp_in.svg" := b "<svg></svg>" ]}).
  vm_compute. eauto.
Defined.

(** X9: when the converter leaves no output file, the iteration raises
    FileNotFoundError at the opening of that file: nothing is cleaned up,
    the file system stays as the converter left it, and the per-key output
    file, removed at the start, is not written again. *)
Theorem process_key_without_converted_file
    (directories : gset string) (inkscape : filesystem -> filesystem)
    (key : Key) (svg : string) (fs : filesystem) :
  synthesize key = Ok svg ->
  inkscape (<["temp_in.svg" := b svg]> (delete (output_filename key) fs))
    !! "temp_out.svg" = None ->
  process_key directories inkscape key fs =
  (inkscape (<["temp_in.svg" := b svg]> (delete (output_filename key) fs)),
   Raise FileNotFoundError).
Proof.
  intros Hsvg Hout. rewrite (process_key_steps directories inkscape key svg fs Hsvg).
  cbn zeta. rewrite Hout. reflexivity.
Qed.

Lemma process_key_without_converted_file_witness :
  process_key {[ "../assets/keys" ]} converter_absent tab_key
    {[ output_filename tab_key := ln "<path d='M 9,9' />" ]} =
  (converter_absent
     (<["temp_in.svg" := b (svg_open ++ text_element 62 150 30 "TAB" ++ "</svg>")]>
        (delete (output_filename tab_key)
           {[ output_filename tab_key := ln "<path d='M 9,9' />" ]})),
   Raise FileNotFoundError).
Proof.
  apply (process_key_without_converted_file {[ "../assets/keys" ]}
           converter_absent tab_key
           (svg_open ++ text_element 62 150 30 "TAB" ++ "</svg>")).
  - reflexivity.
  - vm_compute. reflexivity.
Defined.

(** X10: for a record without labels the iteration raises IndexError after
    the removal of the previous output file and before any transient file
    is written or the converter is run. *)
Theorem process_key_unlabelled
    (directories : gset string) (inkscape : filesystem -> filesystem)
    (key : Key) (fs : filesystem) :
  labels key = [] ->
  process_key directories inkscape key fs =
  (delete (output_filename key) fs, Raise IndexError).
Proof.
  intros E. apply process_key_raise, synthesize_none, E.
Qed.

Lemma process_key_unlabelled_witness :
  process_key {[ "../assets/keys" ]} (converter_writing (ln "<path />")) unlabelled_key
    {[ output_filename unlabelled_key := ln "<path d='M 9,9' />" ]} =
  (delete (output_filename unlabelled_key)
     {[ output_filename unlabelled_key := ln "<path d='M 9,9' />" ]},
   Raise IndexError).
Proof.
  apply (process_key_unlabelled {[ "../assets/keys" ]}
           (converter_writing (ln "<path />")) unlabelled_key).
  reflexivity.
Defined.

(** ** Iterations with a converter that works *)

(** The file system an iteration leaves behind: the per-key file written,
    no transient file. *)
Lemma iteration_state (key : Key) (svg converted extracted : bytes) (fs : filesystem) :
  delete "temp_out.svg" (delete "temp_in.svg"
    (<[output_filename key := extracted]>
       (<["temp_out.svg" := converted]>
          (<["temp_in.svg" := svg]> (delete (output_filename key) fs))))) =
  <[output_filename key := extracted]>
    (delete "temp_out.svg" (delete "temp_in.svg" fs)).
Proof.
  destruct (output_filename_not_transient key) as [Hi Ho].
  apply map_eq. intros path.
  destruct (decide (path = "temp_out.svg")) as [->|Hpo].
  { rewrite lookup_delete_eq, lookup_insert_ne by exact Ho.
    rewrite lookup_delete_eq. reflexivity. }
  rewrite lookup_delete_ne by congruence.
  destruct (decide (path = "temp_in.svg")) as [->|Hpi].
  { rewrite lookup_delete_eq, lookup_insert_ne by exact Hi.
    rewrite lookup_delete_ne by discriminate. rewrite lookup_delete_eq. reflexivity. }
  rewrite lookup_delete_ne by congruence.
  destruct (decide (path = output_filename key)) as [->|Hp].
  { rewrite !lookup_insert_eq. reflexivity. }
  rewrite !lookup_insert_ne by congruence.
  rewrite !lookup_delete_ne by congruence. reflexivity.
Qed.

Lemma process_key_converter_of
    (directories : gset string) (convert : bytes -> bytes)
    (key : Key) (svg : string) (fs : filesystem) :
  synthesize key = Ok svg ->
  can_create directories (output_filename key) = true ->
  process_key directories (converter_of convert) key fs =
  (<[output_filename key := extractor (convert (b svg))]>
     (delete "temp_out.svg" (delete "temp_in.svg" fs)), Ok tt).
Proof.
  intros Hsvg Hdir. rewrite (process_key_steps _ _ key svg fs Hsvg). cbn zeta.
  unfold converter_of. rewrite lookup_insert_eq, lookup_insert_eq, Hdir.
  destruct (output_filename_not_transient key) as [Hi Ho].
  rewrite cleanup_temp_in_present.
  - rewrite iteration_state. reflexivity.
  - rewrite lookup_insert_ne by exact Hi.
    rewrite lookup_insert_ne by discriminate.
    rewrite lookup_insert_eq. eauto.
Qed.



(** X12: with such a converter, for a record that has a label and whose
    per-key file lies in a directory that exists, running the iteration a
    second time on the result of the first run gives the file system and
    the result of the first run again. *)
Theorem process_key_twice
    (directories : gset string) (convert : bytes -> bytes)
    (key : Key) (fs : filesystem) :
  labels key <> [] ->
  can_create directories (output_filename key) = true ->
  process_key directories (converter_of convert) key
    (fst (process_key directories (converter_of convert) key fs)) =
  process_key directories (converter_of convert) key fs.
Proof.
  intros Hlabel Hdir. destruct (synthesize_labelled key Hlabel) as [svg Hsvg].
  rewrite !(process_key_converter_of directories convert key svg _ Hsvg Hdir).
  cbn [fst]. f_equal.
  destruct (output_filename_not_transient key) as [Hi Ho].
  apply map_eq. intros path.
  destruct (decide (path = output_filename key)) as [->|Hp].
  { rewrite !lookup_insert_eq. reflexivity. }
  rewrite !lookup_insert_ne by congruence.
  destruct (decide (path = "temp_out.svg")) as [->|Hpo].
  { rewrite !lookup_delete_eq. reflexivity. }
  rewrite !(lookup_delete_ne _ "temp_out.svg") by congruence.
  destruct (decide (path = "temp_in.svg")) as [->|Hpi].
  { rewrite !lookup_delete_eq. reflexivity. }
  rewrite !(lookup_delete_ne _ "temp_in.svg") by congruence.
  rewrite lookup_insert_ne by congruence.
  rewrite !lookup_delete_ne by congruence. reflexivity.
Qed.

Lemma process_key_twice_witness :
  process_key {[ "../assets/keys" ]} (converter_of (fun _ => two_regions_bytes)) tab_key
    (fst (process_key {[ "../assets/keys" ]}
            (converter_of (fun _ => two_regions_bytes)) tab_key empty)) =
  process_key {[ "../assets/keys" ]} (converter_of (fun _ => two_regions_bytes))
    tab_key empty.
Proof.
  apply (process_key_twice {[ "../assets/keys" ]} (fun _ => two_regions_bytes)
           tab_key empty).
  - discriminate.
  - vm_compute. reflexivity.
Defined.



(** ** The loop over the records *)








Lemma process_keys_cons
    (directories : gset string) (inkscape : filesystem -> filesystem)
    (key : Key) (ks : list Key) (fs : filesystem) :
  process_keys directories inkscape (key :: ks) fs =
  match process_key directories inkscape key fs with
  | (fs', Ok _) => process_keys directories inkscape ks fs'
  | (fs', Raise e) => (fs', Raise e)
  end.
Proof. reflexivity. Qed.






(** X15: the loop stops at the first record whose iteration raises: the
    exception leaves the loop, the file system stays as that iteration left
    it, and no later record is processed. *)
Theorem process_keys_stops_at_exception
    (directories : gset string) (inkscape : filesystem -> filesystem)
    (done : list Key) (key : Key)
    (later : list Key) (fs fs_before fs_raised : filesystem) (e : exn) :
  process_keys directories inkscape done fs = (fs_before, Ok tt) ->
  process_key directories inkscape key fs_before = (fs_raised, Raise e) ->
  process_keys directories inkscape (done ++ key :: later) fs = (fs_raised, Raise e).
Proof.
  revert fs. induction done as [|first done IH]; intros fs Hdone Hkey.
  - cbn [process_keys] in Hdone. injection Hdone as ->.
    cbn [app]. rewrite process_keys_cons, Hkey. reflexivity.
  - cbn [app]. rewrite process_keys_cons in *.
    destruct (process_key directories inkscape first fs) as [fs' [[]|e']].
    + apply IH; assumption.
    + discriminate.
Qed.

Lemma process_keys_stops_at_exception_witness :
  process_keys {[ "../assets/keys" ]} (converter_of (fun _ => two_regions_bytes))
    ([tab_key] ++ unlabelled_key :: [caps_lock_key]) empty =
  (fst (process_key {[ "../assets/keys" ]}
          (converter_of (fun _ => two_regions_bytes)) tab_key empty),
   Raise IndexError).
Proof.
  apply (process_keys_stops_at_exception {[ "../assets/keys" ]}
           (converter_of (fun _ => two_regions_bytes))
           [tab_key] unlabelled_key [caps_lock_key] empty
           (fst (process_key {[ "../assets/keys" ]}
                   (converter_of (fun _ => two_regions_bytes)) tab_key empty))).
  - vm_compute. reflexivity.
  - vm_compute. reflexivity.
Defined.

(** X16: when the converter writes nothing and no converter output file is
    around, the whole run stops in the iteration of the first record of the
    table with FileNotFoundError: the converter input file stays behind
    with the document of that record, and no per-key file is written. *)
Theorem main_without_converter (directories : gset string) (fs : filesystem) :
  fs !! "temp_out.svg" = None ->
  main directories converter_absent fs =
  (<["temp_in.svg" := b (svg_open ++ text_element 50 50 30 "ESC" ++ "</svg>")]>
     (delete "../assets/keys/Escape.partial.svg" fs),
   Raise FileNotFoundError).
Proof.
  intros Hout. unfold main, keys. rewrite process_keys_cons.
  rewrite (process_key_steps directories converter_absent
             (mkKey "Escape" 0 0 100 ["ESC"])
             (svg_open ++ text_element 50 50 30 "ESC" ++ "</svg>") fs eq_refl).
  cbn zeta. unfold converter_absent.
  change (output_filename (mkKey "Escape" 0 0 100 ["ESC"]))
    with "../assets/keys/Escape.partial.svg".
  rewrite lookup_insert_ne by discriminate.
  rewrite lookup_delete_ne by discriminate.
  rewrite Hout. reflexivity.
Qed.

Lemma main_without_converter_witness :
  main {[ "../assets/keys" ]} converter_absent empty =
  (<["temp_in.svg" := b (svg_open ++ text_element 50 50 30 "ESC" ++ "</svg>")]>
     (delete "../assets/keys/Escape.partial.svg" empty),
   Raise FileNotFoundError).
Proof. apply (main_without_converter {[ "../assets/keys" ]} empty). reflexivity. Defined.
